(** * Stop-watch: the timing engine and its persistence (script.js)

    A shallow embedding of the stopwatch script.  The module-level
    variables [startTime], [elapsed], [running] and [laps] and the
    browser's [localStorage] form the world that every function of the
    script reads and writes; a function of the script is a computation
    over that world which either completes or throws.

    Numbers.  The engine uses only [+], [-], [<] and [>] on clock readings
    and on sums of their differences.  A reading is modelled as an integer
    count of clock ticks, on which these operations are exact.

    Clock.  [now()] reads [performance.now()].  A function of the model
    takes the reading that its call of [now()] returns as an argument; the
    reads made only to refresh the page (renderTime, updateButtons, tick)
    do not touch the variables and are left out, like the DOM itself and
    [rafId], the handle of the rendering loop.  What the rendering
    functions write to the page is given by functions of the variables.

    Storage.  [localStorage] is a finite map from keys to stored strings;
    [setItem] is taken to succeed. *)

From Stdlib Require Import ZArith Lia.
From stdpp Require Import base option list strings pretty gmap.

Local Open Scope Z_scope.
Set Warnings "-register-all".

(** ** JavaScript values, as far as JSON documents need them *)

Inductive value :=
| VUndefined
| VNull
| VBool (b : bool)
| VNum (n : Z)
| VStr (s : string)
| VArr (elems : list value)
| VObj (props : list (string * value)).

Inductive exn := TypeError | SyntaxError.

Inductive Outcome (A : Type) :=
| Done (a : A)
| Thrown (e : exn).
Arguments Done {A} a.
Arguments Thrown {A} e.

(** ToBoolean: what [!x], [!!x] and [x || y] test. *)
Definition truthy (v : value) : bool :=
  match v with
  | VUndefined | VNull => false
  | VBool b => b
  | VNum n => negb (n =? 0)
  | VStr s => negb (String.eqb s "")
  | VArr _ | VObj _ => true
  end.

(** [a || b] *)
Definition or_else (a b : value) : value := if truthy a then a else b.

(** Own property [k] of an object literal or of a parsed object. *)
Fixpoint lookup_prop (k : string) (props : list (string * value)) : value :=
  match props with
  | [] => VUndefined
  | (k', v) :: rest => if String.eqb k k' then v else lookup_prop k rest
  end.

(** [v.k], for the four names the script reads, none of which is a
    property of a number, string, boolean or array: reading from [null]
    or [undefined] throws, a primitive or an array gives [undefined]. *)
Definition get_prop (v : value) (k : string) : Outcome value :=
  match v with
  | VUndefined | VNull => Thrown TypeError
  | VObj props => Done (lookup_prop k props)
  | _ => Done VUndefined
  end.

(** [Array.isArray(v) ? v : []], as the list of the elements. *)
Definition array_or_empty (v : value) : list value :=
  match v with
  | VArr elems => elems
  | _ => []
  end.

(** ** The text of a storage entry

    A stored string is represented by what [JSON.parse] makes of it: the
    empty string (which is falsy), any other string that [JSON.parse]
    rejects, or the encoding of a value. *)
Inductive text :=
| Blank
| Malformed
| Encoded (v : value).

Definition JSON_parse (raw : text) : Outcome value :=
  match raw with
  | Blank | Malformed => Thrown SyntaxError
  | Encoded v => Done v
  end.

(** [JSON.stringify], on the documents the script writes: objects of
    finite numbers, booleans and arrays of finite numbers. *)
Definition JSON_stringify (v : value) : text := Encoded v.

(** [!raw] for a stored string. *)
Definition blank (raw : text) : bool :=
  match raw with
  | Blank => true
  | _ => false
  end.

(** ** The variables of the script

    [V] is what a numeric variable holds: a number ([Z]) in the engine,
    any [value] right after [loadState], which assigns whatever the stored
    document contains. *)
Record State (V : Type) := mkState {
  startTime : V;
  elapsed : V;
  running : bool;
  laps : list V
}.
Arguments mkState {V} _ _ _ _.
Arguments startTime {V} _.
Arguments elapsed {V} _.
Arguments running {V} _.
Arguments laps {V} _.

Record World (V : Type) := mkWorld {
  vars : State V;
  localStorage : gmap string text
}.
Arguments mkWorld {V} _ _.
Arguments vars {V} _.
Arguments localStorage {V} _.

Definition STORAGE_KEY : string := "interactiveStopwatch_v1".

(** [let startTime = 0; let elapsed = 0; let running = false; let laps = []] *)
Definition initial {V} (zero : V) : State V := mkState zero zero false [].

(** A numeric state seen as JavaScript values. *)
Definition inject (s : State Z) : State value :=
  mkState (VNum (startTime s)) (VNum (elapsed s)) (running s) (VNum <$> laps s).

(** The world of a process that has just started: fresh variables, and
    the storage the previous processes left. *)
Definition boot {V} (zero : V) (store : gmap string text) : World V :=
  mkWorld (initial zero) store.

(** ** Computations over the world *)

Definition Script (V A : Type) : Type := World V → Outcome A * World V.

Definition ret {V A} (a : A) : Script V A := λ w, (Done a, w).

(** Sequencing: a throw skips the rest and keeps the world as it is. *)
Definition bind {V A B} (m : Script V A) (f : A → Script V B) : Script V B :=
  λ w,
    match m w with
    | (Done a, w') => f a w'
    | (Thrown e, w') => (Thrown e, w')
    end.

Declare Scope script_scope.
Delimit Scope script_scope with script.
Bind Scope script_scope with Script.
Notation "x ← y ; z" := (bind y (λ x, z))
  (at level 20, y at level 100, z at level 200, only parsing) : script_scope.
Notation "x ;; z" := (bind x (λ _, z))
  (at level 100, z at level 200, only parsing, right associativity) : script_scope.
Local Open Scope script_scope.

(** The world a computation leaves, and what it returns. *)
Definition exec {V A} (m : Script V A) (w : World V) : World V := (m w).2.
Definition outcome {V A} (m : Script V A) (w : World V) : Outcome A := (m w).1.

Section Primitives.
Context {V : Type}.

Definition read {A} (f : State V → A) : Script V A :=
  λ w, (Done (f (vars w)), w).

Definition lift {A} (o : Outcome A) : Script V A :=
  λ w, (o, w).

Definition set_startTime (x : V) : Script V unit :=
  λ w, (Done tt,
        mkWorld (mkState x (elapsed (vars w)) (running (vars w)) (laps (vars w)))
                (localStorage w)).

Definition set_elapsed (x : V) : Script V unit :=
  λ w, (Done tt,
        mkWorld (mkState (startTime (vars w)) x (running (vars w)) (laps (vars w)))
                (localStorage w)).

Definition set_running (b : bool) : Script V unit :=
  λ w, (Done tt,
        mkWorld (mkState (startTime (vars w)) (elapsed (vars w)) b (laps (vars w)))
                (localStorage w)).

Definition set_laps (l : list V) : Script V unit :=
  λ w, (Done tt,
        mkWorld (mkState (startTime (vars w)) (elapsed (vars w)) (running (vars w)) l)
                (localStorage w)).

(** [localStorage.getItem(k)]: [None] stands for [null]. *)
Definition getItem (k : string) : Script V (option text) :=
  λ w, (Done (localStorage w !! k), w).

(** [localStorage.setItem(k, x)] *)
Definition setItem (k : string) (x : text) : Script V unit :=
  λ w, (Done tt, mkWorld (vars w) (<[k := x]> (localStorage w))).

(** [try { body } catch { /* ignore */ }]: what [body] assigned before
    it threw stays assigned. *)
Definition try_ignore (body : Script V unit) : Script V unit :=
  λ w, (Done tt, (body w).2).
End Primitives.

(** ** Persistence *)

Definition saveState : Script Z unit :=
  st ← read startTime;
  e ← read elapsed;
  r ← read running;
  l ← read laps;
  setItem STORAGE_KEY
    (JSON_stringify (VObj [("startTime", VNum st); ("elapsed", VNum e);
                           ("running", VBool r); ("laps", VArr (VNum <$> l))])).

Definition loadState : Script value unit :=
  raw ← getItem STORAGE_KEY;
  match raw with
  | None => ret tt
  | Some raw =>
      if blank raw then ret tt
      else
        try_ignore (
          s ← lift (JSON_parse raw);
          a ← lift (get_prop s "startTime");
          set_startTime (or_else a (VNum 0));;
          b ← lift (get_prop s "elapsed");
          set_elapsed (or_else b (VNum 0));;
          c ← lift (get_prop s "running");
          set_running (truthy c);;
          d ← lift (get_prop s "laps");
          set_laps (array_or_empty d))
  end.

(** ** The engine *)

Definition currentElapsed (now : Z) : Script Z Z :=
  r ← read running;
  e ← read elapsed;
  st ← read startTime;
  ret (if r then e + (now - st) else e).

Definition start (now : Z) : Script Z unit :=
  r ← read running;
  if r then ret tt
  else
    set_startTime now;;
    set_running true;;
    saveState.

Definition pause (now : Z) : Script Z unit :=
  r ← read running;
  if negb r then ret tt
  else
    e ← read elapsed;
    st ← read startTime;
    set_elapsed (e + (now - st));;
    set_running false;;
    saveState.

Definition reset (now : Z) : Script Z unit :=
  r ← read running;
  (if r then pause now else ret tt);;
  set_elapsed 0;;
  set_startTime 0;;
  saveState.

Definition lap (now : Z) : Script Z unit :=
  r ← read running;
  if negb r then ret tt
  else
    cum ← currentElapsed now;
    l ← read laps;
    set_laps (l ++ [cum]);;
    saveState.

Definition clearLaps : Script Z unit :=
  set_laps [];;
  saveState.

(** The start-up block after [loadState()].  [now()] is called up to
    three times: [n1] is the first read, [n2] the read that stands in for
    a falsy [startTime], [n3] the read of the assignment. *)
Definition resume (n1 n2 n3 : Z) : Script Z unit :=
  r ← read running;
  if r then
    st ← read startTime;
    let drift := n1 - (if negb (st =? 0) then st else n2) in
    set_startTime (n3 - drift)
  else ret tt.

(** ** Start-up

    [loadState()] runs on the fresh variables and the stored entry, then
    the resume block runs on what it assigned.  The engine computes with
    numbers, so the start-up is followed when the variables hold numbers,
    which they do whenever the entry was written by [saveState]. *)

Definition as_number (v : value) : option Z :=
  match v with
  | VNum n => Some n
  | _ => None
  end.

Fixpoint as_numbers (l : list value) : option (list Z) :=
  match l with
  | [] => Some []
  | v :: l' =>
      match as_number v, as_numbers l' with
      | Some n, Some ns => Some (n :: ns)
      | _, _ => None
      end
  end.

Definition numeric (s : State value) : option (State Z) :=
  match as_number (startTime s), as_number (elapsed s), as_numbers (laps s) with
  | Some st, Some e, Some l => Some (mkState st e (running s) l)
  | _, _, _ => None
  end.

Definition startup (n1 n2 n3 : Z) (store : gmap string text) : option (World Z) :=
  let w := exec loadState (boot (VNum 0) store) in
  match numeric (vars w) with
  | Some s => Some (exec (resume n1 n2 n3) (mkWorld s (localStorage w)))
  | None => None
  end.

(** ** Best and worst split *)

Record Indices := mkIndices { best : Z; worst : Z }.

(** [list.forEach((v, i) => ...)] as a left-to-right pass that threads
    the variables the callback assigns. *)
Fixpoint forEach {A St} (f : A → nat → St → St) (l : list A) (i : nat) (s : St) : St :=
  match l with
  | [] => s
  | v :: l' => forEach f l' (S i) (f v i s)
  end.

(** [v < a[i]]: false when [a[i]] is undefined. *)
Definition lt_at (v : Z) (a : list Z) (i : nat) : bool :=
  match a !! i with
  | Some x => v <? x
  | None => false
  end.

(** [v > a[i]] *)
Definition gt_at (v : Z) (a : list Z) (i : nat) : bool :=
  match a !! i with
  | Some x => v >? x
  | None => false
  end.

(** [list.map((cum, i) => i === 0 ? cum : (cum - list[i-1]))]; the
    index [i-1] is inside the list whenever the callback reads it. *)
Definition splits_of (lst : list Z) : list Z :=
  imap (λ i cum, if (i =? 0)%nat then cum else cum - default 0 (lst !! (i - 1)%nat)) lst.

(** The callback of [splits.forEach]:
    [if (v < splits[best]) best = i; if (v > splits[worst]) worst = i;] *)
Definition compare_split (splits : list Z) (v : Z) (i : nat) (bw : nat * nat) : nat * nat :=
  (if lt_at v splits bw.1 then i else bw.1,
   if gt_at v splits bw.2 then i else bw.2).

Definition bestWorstIndices (lst : list Z) : Indices :=
  if (length lst <? 2)%nat then mkIndices (-1) (-1)
  else
    let splits := splits_of lst in
    let bw := forEach (compare_split splits) splits 0%nat (0%nat, 0%nat) in
    mkIndices (Z.of_nat bw.1) (Z.of_nat bw.2).

(** ** Sequences of commands under a clock

    The page calls the five actions one after the other; each call
    happens at a reading of the clock that is not before the previous
    one. *)

Inductive command := Start | Pause | Reset | Lap | ClearLaps.

Definition perform (c : command) (now : Z) : Script Z unit :=
  match c with
  | Start => start now
  | Pause => pause now
  | Reset => reset now
  | Lap => lap now
  | ClearLaps => clearLaps
  end.

(** The number of laps that were already in the list at the latest
    [Reset] (none after [ClearLaps]); a bookkeeping value the script does
    not hold. *)
Definition mark_after (c : command) (k : nat) (w : World Z) : nat :=
  match c with
  | Reset => length (laps (vars w))
  | ClearLaps => 0%nat
  | _ => k
  end.

(** [reachable t k w]: some sequence of commands, issued at
    non-decreasing readings of which [t] is the last, leads from the
    fresh variables to [w]; [k] is the mark above. *)
Inductive reachable : Z → nat → World Z → Prop :=
| reach_boot t store :
    reachable t 0%nat (boot 0 store)
| reach_step t t' k w c :
    reachable t k w →
    t ≤ t' →
    reachable t' (mark_after c k w) (exec (perform c t') w).

(** [laps[i] >= laps[i-1]] for every [i >= 1]. *)
Definition nondecreasing (l : list Z) : Prop :=
  ∀ (i : nat) (a b : Z), l !! i = Some a → l !! S i = Some b → a ≤ b.

(** Split [i] of a list of cumulative totals. *)
Definition split_at (lst : list Z) (i : nat) : Z :=
  match i with
  | O => default 0 (lst !! 0%nat)
  | S j => default 0 (lst !! i) - default 0 (lst !! j)
  end.

(** What [currentElapsed()] returns at the reading [t]. *)
Definition shown (t : Z) (s : State Z) : Z :=
  if running s then elapsed s + (t - startTime s) else elapsed s.

(** The laps recorded since the mark are in order and none exceeds what
    the watch shows. *)
Definition laps_in_step (t : Z) (k : nat) (w : World Z) : Prop :=
  (k ≤ length (laps (vars w)))%nat ∧
  nondecreasing (drop k (laps (vars w))) ∧
  Forall (λ x, x ≤ shown t (vars w)) (drop k (laps (vars w))).

(** Entry [j] of an array of numbers. *)
Definition at_index (a : list Z) (j : nat) : Z := default 0 (a !! j).

(** After the entries before [i]: [b] is the first index of a least
    entry among them and [w] the first index of a greatest one. *)
Definition first_extremes (a : list Z) (i : nat) (bw : nat * nat) : Prop :=
  (bw.1 < length a)%nat ∧ (bw.2 < length a)%nat ∧
  (∀ j, (j < i)%nat → (j < length a)%nat → at_index a bw.1 ≤ at_index a j) ∧
  (∀ j, (j < bw.1)%nat → at_index a bw.1 < at_index a j) ∧
  (∀ j, (j < i)%nat → (j < length a)%nat → at_index a j ≤ at_index a bw.2) ∧
  (∀ j, (j < bw.2)%nat → at_index a j < at_index a bw.2).

(** A recorded session: the commands with the reading at which each is
    issued. *)
Definition run (cs : list (command * Z)) (w : World Z) : World Z :=
  foldl (λ w '(c, t), exec (perform c t) w) w cs.

(** The mark at the end of a session that starts at mark [k]. *)
Fixpoint session_mark (cs : list (command * Z)) (k : nat) (w : World Z) : nat :=
  match cs with
  | [] => k
  | (c, t) :: cs' => session_mark cs' (mark_after c k w) (exec (perform c t) w)
  end.

(** The readings of a session do not go back, [t] being the reading
    before it. *)
Fixpoint in_order (t : Z) (cs : list (command * Z)) : Prop :=
  match cs with
  | [] => True
  | (_, t') :: cs' => t ≤ t' ∧ in_order t' cs'
  end.

(** The reading of the last command of a session. *)
Definition last_reading (t : Z) (cs : list (command * Z)) : Z :=
  foldl (λ _ ct, ct.2) t cs.

(** ** Formatting

    [formatMs] is given a whole number of milliseconds, on which
    [Math.floor] changes nothing; [%] keeps the sign of the dividend
    ([Z.rem]) and [Math.floor(a / b)] is the floored quotient.  That
    reading of the script's arithmetic is exact below 2^53, the whole
    numbers a JavaScript number holds one by one; from there on the
    division rounds, and [formatMs] gives no text ([None]). *)

(** [n < 10 ? '0' + n : '' + n], the number written in plain decimal, as
    JavaScript writes the whole numbers below 10^21. *)
Definition pad2 (n : Z) : string :=
  if n <? 10 then "0" +:+ pretty n else pretty n.

Definition formatMs (ms : Z) : option string :=
  if ms <? 2 ^ 53 then
    let totalMs := Z.max 0 ms in
    let centi := Z.rem totalMs 1000 / 10 in
    let totalSec := totalMs / 1000 in
    let s := Z.rem totalSec 60 in
    let m := Z.rem (totalSec / 60) 60 in
    let h := totalSec / 3600 in
    Some (pad2 h +:+ ":" +:+ pad2 m +:+ ":" +:+ pad2 s +:+ "." +:+ pad2 centi)
  else None.

(** ** What the script puts on the page

    The rendering functions write to the DOM and to nothing else; each is
    modelled by what it writes, as a function of the variables. *)



(** What [updateButtons()] sets, [now] being the reading of its call of
    [currentElapsed()]. *)
Record Buttons := mkButtons {
  lapDisabled : bool;
  resetDisabled : bool;
  clearLapsDisabled : bool;
  ariaPressed : string;
  label : string
}.

Definition updateButtons (now : Z) (s : State Z) : Buttons :=
  mkButtons
    (negb (running s))
    ((shown now s <=? 0) && (length (laps s) =? 0)%nat)
    (length (laps s) =? 0)%nat
    (if running s then "true" else "false")
    (if running s then "Pause" else if elapsed s >? 0 then "Resume" else "Start").

(** The click on the start/pause button, and the space bar:
    [running ? pause() : start()]. *)
Definition startPause (now : Z) : Script Z unit :=
  r ← read running;
  if r then pause now else start now.

(** ** Bookkeeping for the properties *)

(** The text [saveState()] stores for given variables. *)
Definition saved (s : State Z) : text :=
  JSON_stringify (VObj [("startTime", VNum (startTime s)); ("elapsed", VNum (elapsed s));
                        ("running", VBool (running s)); ("laps", VArr (VNum <$> laps s))]).

(** The stored entry is the encoding of the variables. *)
Definition in_sync (w : World Z) : Prop :=
  localStorage w !! STORAGE_KEY = Some (saved (vars w)).

(** A session of running intervals: start at the first reading of each
    pair, pause at the second. *)
Definition intervals (l : list (Z * Z)) : list (command * Z) :=
  flat_map (λ ab, [(Start, ab.1); (Pause, ab.2)]) l.

(** The lengths of the intervals added to [e] one after the other, in
    the order and with the grouping of [elapsed += (now() - startTime)]. *)
Definition accumulated (e : Z) (l : list (Z * Z)) : Z :=
  foldl (λ acc ab, acc + (ab.2 - ab.1)) e l.

(** [v.k] when it does not throw, [undefined] otherwise. *)
Definition field (doc : value) (k : string) : value :=
  match get_prop doc k with
  | Done v => v
  | Thrown _ => VUndefined
  end.

(** * Properties *)

(** Unfolds a script down to the world it returns. *)
Ltac script :=
  unfold startPause, startup, exec, outcome, perform, resume, clearLaps, lap, reset, pause, start,
    currentElapsed, loadState, saveState, try_ignore, setItem, getItem,
    set_laps, set_running, set_elapsed, set_startTime, lift, read, bind, ret;
  cbn.

(** Splits a world into its variables and its storage. *)
Ltac open_world w :=
  let st := fresh "st" in
  let e := fresh "e" in
  let r := fresh "r" in
  let l := fresh "l" in
  let store := fresh "store" in
  destruct w as [[st e r l] store]; cbn in *.

(** ** A session, step by step *)

Example session_laps :
  vars (run [(Start, 0); (Lap, 1500); (Lap, 2700); (Pause, 3000)] (boot 0 ∅)) =
    mkState 0 3000 false [1500; 2700].
Proof. reflexivity. Qed.

Example session_reset_keeps_laps :
  vars (run [(Start, 0); (Lap, 1500); (Lap, 2700); (Pause, 3000); (Reset, 3500)]
            (boot 0 ∅)) =
    mkState 0 0 false [1500; 2700].
Proof. reflexivity. Qed.

Example session_clearLaps :
  vars (run [(Start, 0); (Lap, 1500); (Lap, 2700); (Pause, 3000); (Reset, 3500);
             (ClearLaps, 3600)] (boot 0 ∅)) =
    mkState 0 0 false [].
Proof. reflexivity. Qed.

Example session_resumed :
  vars (run [(Start, 100); (Pause, 400); (Start, 1000); (Lap, 1250)] (boot 0 ∅)) =
    mkState 1000 300 true [550].
Proof. reflexivity. Qed.

Example best_worst_two_laps :
  bestWorstIndices [1500; 2700] = mkIndices 1 0.
Proof. reflexivity. Qed.

Example best_worst_ties :
  bestWorstIndices [1500; 3000; 4500; 4600; 4700; 9000; 13300] = mkIndices 3 5.
Proof. reflexivity. Qed.

Example load_wrong_types :
  vars (exec loadState
          (boot (VNum 0)
             {[ STORAGE_KEY := Encoded (VObj [("elapsed", VStr "abc"); ("laps", VNum 3)]) ]})) =
    mkState (VNum 0) (VStr "abc") false [].
Proof. reflexivity. Qed.

(** ** The query *)

(** C2. [currentElapsed()] completes, leaves the variables and the storage
    as they were, and returns [elapsed] when the watch is paused and
    [elapsed + (now() - startTime)] when it is running. *)
Theorem currentElapsed_pure_query (now : Z) (w : World Z) :
  exec (currentElapsed now) w = w ∧
  outcome (currentElapsed now) w =
    Done (if running (vars w)
          then elapsed (vars w) + (now - startTime (vars w))
          else elapsed (vars w)).
Proof. split; reflexivity. Qed.

Lemma currentElapsed_paused (now : Z) (w : World Z) :
  running (vars w) = false →
  currentElapsed now w = (Done (elapsed (vars w)), w).
Proof. intros Hr. script. rewrite Hr. reflexivity. Qed.


(** ** Pause *)

(** C3. On a running watch [pause()] adds [now() - startTime] to
    [elapsed] and clears [running]; from then on [currentElapsed()]
    returns that [elapsed] at every reading of the clock. *)
Theorem pause_folds_and_freezes (now : Z) (w : World Z) :
  running (vars w) = true →
  outcome (pause now) w = Done tt ∧
  elapsed (vars (exec (pause now) w)) =
    elapsed (vars w) + (now - startTime (vars w)) ∧
  running (vars (exec (pause now) w)) = false ∧
  ∀ later : Z,
    outcome (currentElapsed later) (exec (pause now) w) =
      Done (elapsed (vars (exec (pause now) w))).
Proof.
  intros Hr. open_world w. subst r. script. repeat split.
Qed.

Lemma pause_folds_and_freezes_witness :
  elapsed (vars (exec (pause 3000) (mkWorld (mkState 0 0 true [1500; 2700]) ∅))) = 3000 ∧
  outcome (currentElapsed 9999)
          (exec (pause 3000) (mkWorld (mkState 0 0 true [1500; 2700]) ∅)) = Done 3000.
Proof.
  destruct (pause_folds_and_freezes 3000 (mkWorld (mkState 0 0 true [1500; 2700]) ∅))
    as (_ & He & _ & Hlater); [reflexivity|].
  split; [exact He | exact (Hlater 9999)].
Defined.

(** ** Reset *)

(** C4. Whatever the state before, after [reset()] the watch is paused,
    [elapsed] and [startTime] are 0, [currentElapsed()] returns 0 at every
    reading and the laps are the ones there were before; on a running
    watch [reset()] is [pause()] followed by the zeroing. *)
Theorem reset_zeroes (now : Z) (w : World Z) :
  outcome (reset now) w = Done tt ∧
  (∀ later : Z, outcome (currentElapsed later) (exec (reset now) w) = Done 0) ∧
  running (vars (exec (reset now) w)) = false ∧
  elapsed (vars (exec (reset now) w)) = 0 ∧
  startTime (vars (exec (reset now) w)) = 0 ∧
  laps (vars (exec (reset now) w)) = laps (vars w) ∧
  reset now w =
    (if running (vars w)
     then (pause now;; set_elapsed 0;; set_startTime 0;; saveState) w
     else (set_elapsed 0;; set_startTime 0;; saveState) w).
Proof.
  open_world w. destruct r; script; repeat split.
Qed.

(** ** Guards *)

(** C6. [lap()] on a paused watch, [start()] on a running watch and
    [pause()] on a paused watch complete without throwing and leave every
    variable and the storage as they were. *)
Theorem guarded_calls_are_noops (now : Z) (w : World Z) :
  (running (vars w) = false → lap now w = (Done tt, w)) ∧
  (running (vars w) = true → start now w = (Done tt, w)) ∧
  (running (vars w) = false → pause now w = (Done tt, w)).
Proof.
  repeat split; intros Hr; script; rewrite Hr; reflexivity.
Qed.

Lemma guarded_calls_are_noops_witness :
  lap 10 (mkWorld (mkState 0 40 false [7]) ∅) = (Done tt, mkWorld (mkState 0 40 false [7]) ∅) ∧
  start 10 (mkWorld (mkState 3 40 true [7]) ∅) = (Done tt, mkWorld (mkState 3 40 true [7]) ∅) ∧
  pause 10 (mkWorld (mkState 0 40 false [7]) ∅) = (Done tt, mkWorld (mkState 0 40 false [7]) ∅).
Proof.
  destruct (guarded_calls_are_noops 10 (mkWorld (mkState 0 40 false [7]) ∅)) as (Hl & _ & Hp).
  destruct (guarded_calls_are_noops 10 (mkWorld (mkState 3 40 true [7]) ∅)) as (_ & Hs & _).
  split; [apply Hl; reflexivity|].
  split; [apply Hs; reflexivity | apply Hp; reflexivity].
Defined.

(** ** Persistence *)

Lemma lookup_prop_missing (k : string) (props : list (string * value)) :
  k ∉ props.*1 → lookup_prop k props = VUndefined.
Proof.
  induction props as [|[k' v] rest IH]; cbn; intros Hk; [reflexivity|].
  destruct (String.eqb_spec k k') as [->|Hne].
  - exfalso. apply Hk. left.
  - apply IH. intros Hin. apply Hk. right. exact Hin.
Qed.

Lemma or_else_num (n : Z) : or_else (VNum n) (VNum 0) = VNum n.
Proof.
  unfold or_else; cbn. destruct (Z.eqb_spec n 0) as [->|]; reflexivity.
Qed.

(** [loadState()] never throws, whatever the variables and the storage
    hold, and never writes to the storage. *)
Lemma loadState_completes (w : World value) :
  outcome loadState w = Done tt ∧
  localStorage (exec loadState w) = localStorage w.
Proof.
  destruct w as [v store]. script.
  destruct (store !! STORAGE_KEY) as [raw|]; [|split; reflexivity].
  destruct raw as [| |doc]; cbn; try (split; reflexivity).
  destruct doc; cbn; split; reflexivity.
Qed.

(** Nothing is assigned when the entry is absent, blank or rejected by
    [JSON.parse], or when it encodes [null]. *)
Lemma loadState_unreadable (w : World value) :
  localStorage w !! STORAGE_KEY = None ∨
  localStorage w !! STORAGE_KEY = Some Blank ∨
  localStorage w !! STORAGE_KEY = Some Malformed ∨
  localStorage w !! STORAGE_KEY = Some (Encoded VNull) →
  exec loadState w = w.
Proof.
  destruct w as [[st e r l] store]. cbn.
  intros [H|[H|[H|H]]]; script; rewrite H; reflexivity.
Qed.

(** What [loadState()] assigns from a stored object. *)
Lemma loadState_object (w : World value) (props : list (string * value)) :
  localStorage w !! STORAGE_KEY = Some (Encoded (VObj props)) →
  vars (exec loadState w) =
    mkState (or_else (lookup_prop "startTime" props) (VNum 0))
            (or_else (lookup_prop "elapsed" props) (VNum 0))
            (truthy (lookup_prop "running" props))
            (array_or_empty (lookup_prop "laps" props)).
Proof.
  destruct w as [v store]. cbn. intros H. script. rewrite H. reflexivity.
Qed.

(** C8. [loadState()] never throws.  At start-up, an entry that is
    absent, blank or not valid JSON leaves the variables at their zeroed
    defaults; from a stored object, a field that is missing is read as
    [0] ([startTime], [elapsed]), [false] ([running]) or the empty list
    ([laps]). *)
Theorem loadState_fails_soft (store : gmap string text) :
  (∀ v : State value, outcome loadState (mkWorld v store) = Done tt) ∧
  (store !! STORAGE_KEY = None ∨
   store !! STORAGE_KEY = Some Blank ∨
   store !! STORAGE_KEY = Some Malformed →
   vars (exec loadState (boot (VNum 0) store)) = initial (VNum 0)) ∧
  (∀ props : list (string * value),
     store !! STORAGE_KEY = Some (Encoded (VObj props)) →
     let s := vars (exec loadState (boot (VNum 0) store)) in
     ("startTime" ∉ props.*1 → startTime s = VNum 0) ∧
     ("elapsed" ∉ props.*1 → elapsed s = VNum 0) ∧
     ("running" ∉ props.*1 → running s = false) ∧
     ("laps" ∉ props.*1 → laps s = [])).
Proof.
  split; [intros v; apply loadState_completes|].
  split.
  - intros H. rewrite loadState_unreadable; [reflexivity|].
    cbn. tauto.
  - intros props H s. subst s.
    rewrite (loadState_object (boot (VNum 0) store) props H). cbn.
    repeat split; intros Hk; rewrite (lookup_prop_missing _ _ Hk); reflexivity.
Qed.

Lemma loadState_fails_soft_witness :
  vars (exec loadState (boot (VNum 0) {[ STORAGE_KEY := Malformed ]})) = initial (VNum 0) ∧
  elapsed (vars (exec loadState
      (boot (VNum 0) {[ STORAGE_KEY := Encoded (VObj [("startTime", VNum 12)]) ]}))) = VNum 0.
Proof.
  split.
  - apply (loadState_fails_soft {[ STORAGE_KEY := Malformed ]}).
    right; right. reflexivity.
  - apply (loadState_fails_soft {[ STORAGE_KEY := Encoded (VObj [("startTime", VNum 12)]) ]})
      with (props := [("startTime", VNum 12)]); [reflexivity|].
    cbn. rewrite list_elem_of_singleton. discriminate.
Defined.

Lemma as_numbers_inject (l : list Z) : as_numbers (VNum <$> l) = Some l.
Proof.
  induction l as [|n l IH]; cbn; [reflexivity|]. rewrite IH. reflexivity.
Qed.

Lemma numeric_inject (s : State Z) : numeric (inject s) = Some s.
Proof.
  destruct s as [st e r l]. unfold numeric, inject. cbn.
  rewrite as_numbers_inject. reflexivity.
Qed.

(** The entry [saveState()] writes is read back into the variables as
    they were saved. *)
Lemma loadState_saved (w : World Z) (v : State value) :
  loadState (mkWorld v (localStorage (exec saveState w))) =
    (Done tt, mkWorld (inject (vars w)) (localStorage (exec saveState w))).
Proof.
  open_world w. script. rewrite lookup_insert_eq. cbn.
  rewrite !or_else_num. destruct r; reflexivity.
Qed.

(** C9. A numeric state that [saveState()] has written is read back by
    [loadState()] field for field, whatever the variables held before
    the load. *)
Theorem load_after_save (w : World Z) (v : State value) :
  outcome saveState w = Done tt ∧
  loadState (mkWorld v (localStorage (exec saveState w))) =
    (Done tt, mkWorld (inject (vars w)) (localStorage (exec saveState w))) ∧
  numeric (vars (exec loadState (mkWorld v (localStorage (exec saveState w))))) =
    Some (vars w).
Proof.
  pose proof (loadState_saved w v) as Hload.
  split; [reflexivity|]. split; [exact Hload|].
  unfold exec at 1. rewrite Hload. cbn [snd vars]. apply numeric_inject.
Qed.

(** ** Start-up of a running watch *)

(** The start-up of a process that finds the entry a previous process
    saved resumes from the saved variables. *)
Lemma startup_after_save (n1 n2 n3 : Z) (w : World Z) :
  startup n1 n2 n3 (localStorage (exec saveState w)) =
    Some (exec (resume n1 n2 n3)
               (mkWorld (vars w) (localStorage (exec saveState w)))).
Proof.
  pose proof (loadState_saved w (initial (VNum 0))) as Hload.
  unfold startup, boot.
  replace (exec loadState (mkWorld (initial (VNum 0)) (localStorage (exec saveState w))))
    with (mkWorld (inject (vars w)) (localStorage (exec saveState w)))
    by exact (eq_sym (f_equal snd Hload)).
  cbn [vars localStorage]. rewrite numeric_inject. reflexivity.
Qed.

(** With the three reads of the clock told apart: a non-zero [startTime]
    moves by what the clock advanced between the first and the last read;
    a zero [startTime] becomes the last read, moved by what the clock
    advanced between the first two. *)
Lemma resume_startTime (n1 n2 n3 : Z) (w : World Z) :
  running (vars w) = true →
  startTime (vars (exec (resume n1 n2 n3) w)) =
    (if startTime (vars w) =? 0
     then n3 + (n2 - n1)
     else startTime (vars w) + (n3 - n1)).
Proof.
  intros Hr. open_world w. subst r. script.
  destruct (Z.eqb_spec st 0); cbn; lia.
Qed.

Lemma resume_rest (n1 n2 n3 : Z) (w : World Z) :
  outcome (resume n1 n2 n3) w = Done tt ∧
  elapsed (vars (exec (resume n1 n2 n3) w)) = elapsed (vars w) ∧
  running (vars (exec (resume n1 n2 n3) w)) = running (vars w) ∧
  laps (vars (exec (resume n1 n2 n3) w)) = laps (vars w) ∧
  localStorage (exec (resume n1 n2 n3) w) = localStorage w.
Proof.
  open_world w. destruct r; script; repeat split.
Qed.

(** With one reading [t] for every read of the clock, the resume block
    leaves a [startTime] that is not 0 as it was and replaces a
    [startTime] of 0 by [t]. *)
Lemma resume_one_reading (t : Z) (w : World Z) :
  running (vars w) = true →
  (startTime (vars w) ≠ 0 →
     startTime (vars (exec (resume t t t) w)) = startTime (vars w)) ∧
  (startTime (vars w) = 0 →
     startTime (vars (exec (resume t t t) w)) = t).
Proof.
  intros Hr. pose proof (resume_startTime t t t w Hr) as Hst.
  destruct (Z.eqb_spec (startTime (vars w)) 0); split; intros; lia.
Qed.




(** C1 on the code.  The state [{running: true, elapsed: 5000,
    startTime: 1000, laps: []}] is saved; a new process, whose clock
    reads 5 during start-up, loads it.  The resume block leaves
    [startTime] at the saved 1000 instead of the reading 5, and
    [currentElapsed()] at that same reading returns 4005, not the saved
    5000. *)
Theorem resume_keeps_stale_startTime :
  ∃ w : World Z,
    startup 5 5 5 (localStorage (exec saveState (mkWorld (mkState 1000 5000 true []) ∅)))
      = Some w ∧
    startTime (vars w) = 1000 ∧
    elapsed (vars w) = 5000 ∧
    outcome (currentElapsed 5) w = Done 4005.
Proof.
  eexists. split; [apply startup_after_save|].
  repeat split.
Qed.

(** ** Order of the laps *)

Lemma nondecreasing_nil : nondecreasing [].
Proof. intros i a b H. rewrite lookup_nil in H. discriminate. Qed.

Lemma nondecreasing_snoc (l : list Z) (c : Z) :
  nondecreasing l → Forall (λ x, x ≤ c) l → nondecreasing (l ++ [c]).
Proof.
  intros Hl Hc i a b Ha Hb.
  apply lookup_snoc_Some in Hb as [[Hlt Hb]|[Hlen ->]].
  - rewrite lookup_app_l in Ha by lia. eapply Hl; eassumption.
  - rewrite lookup_app_l in Ha by lia.
    rewrite Forall_lookup in Hc. eapply Hc; eassumption.
Qed.

Lemma Forall_le_trans (l : list Z) (c d : Z) :
  c ≤ d → Forall (λ x, x ≤ c) l → Forall (λ x, x ≤ d) l.
Proof.
  intros Hcd H. eapply Forall_impl; [exact H|]. cbn. intros x Hx. lia.
Qed.

(** What the watch shows does not go back while the clock does not. *)
Lemma shown_mono (t t' : Z) (s : State Z) : t ≤ t' → shown t s ≤ shown t' s.
Proof. intros Ht. unfold shown. destruct (running s); lia. Qed.

Lemma laps_in_step_boot (t : Z) (store : gmap string text) :
  laps_in_step t 0 (boot 0 store).
Proof.
  unfold laps_in_step. cbn. split; [lia|]. split; [apply nondecreasing_nil|constructor].
Qed.

Lemma laps_in_step_perform (t t' : Z) (k : nat) (w : World Z) (c : command) :
  t ≤ t' →
  laps_in_step t k w →
  laps_in_step t' (mark_after c k w) (exec (perform c t') w).
Proof.
  intros Ht (Hk & Hord & Hmax).
  apply (Forall_le_trans _ _ _ (shown_mono t t' (vars w) Ht)) in Hmax.
  unfold shown in Hmax. unfold laps_in_step, shown.
  open_world w.
  destruct c, r; script; cbn in *;
    try (split; [assumption|]; split; [assumption|]);
    try assumption.
  - (* start on a paused watch *)
    eapply Forall_le_trans; [|exact Hmax]. lia.
  - (* reset on a running watch *)
    rewrite drop_all. split; [lia|]. split; [apply nondecreasing_nil|constructor].
  - (* reset on a paused watch *)
    rewrite drop_all. split; [lia|]. split; [apply nondecreasing_nil|constructor].
  - (* lap on a running watch *)
    rewrite length_app, drop_app_le by lia. cbn.
    split; [lia|]. split.
    + apply nondecreasing_snoc; assumption.
    + apply Forall_app. split; [assumption|]. constructor; [lia|constructor].
  - (* clearLaps *)
    split; [lia|]. split; [apply nondecreasing_nil|constructor].
  - split; [lia|]. split; [apply nondecreasing_nil|constructor].
Qed.

Lemma reachable_laps_in_step (t : Z) (k : nat) (w : World Z) :
  reachable t k w → laps_in_step t k w.
Proof.
  induction 1 as [t store|t t' k w c _ IH Ht].
  - apply laps_in_step_boot.
  - apply laps_in_step_perform with (t := t); assumption.
Qed.

(** C5, as the script has it.  In every state reached by the five
    actions under a clock that does not go back, the laps recorded since
    the latest [reset()] (all of them when none came since the list was
    last empty) are non-decreasing. *)
Theorem laps_since_reset_nondecreasing (t : Z) (k : nat) (w : World Z) :
  reachable t k w →
  nondecreasing (drop k (laps (vars w))).
Proof.
  intros H. apply reachable_laps_in_step in H. apply H.
Qed.

(** A session whose readings do not go back ends in a reachable state. *)
Lemma reachable_session :
  reachable 3100 1
    (run [(Start, 0); (Lap, 1500); (Reset, 2000); (Start, 3000); (Lap, 3100)]
         (boot 0 ∅)).
Proof.
  pose proof (reach_boot 0 ∅) as H.
  apply (reach_step 0 0 _ _ Start) in H; [|lia].
  apply (reach_step 0 1500 _ _ Lap) in H; [|lia].
  apply (reach_step 1500 2000 _ _ Reset) in H; [|lia].
  apply (reach_step 2000 3000 _ _ Start) in H; [|lia].
  apply (reach_step 3000 3100 _ _ Lap) in H; [|lia].
  exact H.
Qed.

(** A session whose readings do not go back leads from a reachable
    state to a reachable state. *)
Lemma run_reachable (cs : list (command * Z)) :
  ∀ (t : Z) (k : nat) (w : World Z),
    reachable t k w →
    in_order t cs →
    reachable (last_reading t cs) (session_mark cs k w) (run cs w).
Proof.
  induction cs as [|[c t'] cs IH]; intros t k w Hw Hcs.
  - exact Hw.
  - destruct Hcs as [Ht Hcs].
    apply (IH t' (mark_after c k w) (exec (perform c t') w)); [|exact Hcs].
    apply reach_step with (t := t); assumption.
Qed.

(** A session with three laps after the reset. *)
Lemma reachable_session_more_laps :
  reachable 4400 1
    (run [(Start, 0); (Lap, 1500); (Reset, 2000); (Start, 3000); (Lap, 3100);
          (Lap, 3500); (Lap, 4400)]
         (boot 0 ∅)).
Proof.
  pose proof (run_reachable
                [(Start, 0); (Lap, 1500); (Reset, 2000); (Start, 3000); (Lap, 3100);
                 (Lap, 3500); (Lap, 4400)]
                0 0 (boot 0 ∅) (reach_boot 0 ∅)) as H.
  assert (session_mark
            [(Start, 0); (Lap, 1500); (Reset, 2000); (Start, 3000); (Lap, 3100);
             (Lap, 3500); (Lap, 4400)] 0 (boot 0 ∅) = 1%nat) as Hm
    by (vm_compute; reflexivity).
  rewrite Hm in H. apply H. cbn. lia.
Qed.

Lemma laps_since_reset_nondecreasing_witness :
  laps (vars (run [(Start, 0); (Lap, 1500); (Reset, 2000); (Start, 3000); (Lap, 3100);
                   (Lap, 3500); (Lap, 4400)]
                  (boot 0 ∅))) = [1500; 100; 500; 1400] ∧
  nondecreasing
    (drop 1 (laps (vars (run [(Start, 0); (Lap, 1500); (Reset, 2000); (Start, 3000);
                              (Lap, 3100); (Lap, 3500); (Lap, 4400)]
                             (boot 0 ∅))))).
Proof.
  split; [vm_compute; reflexivity|].
  exact (laps_since_reset_nondecreasing 4400 1 _ reachable_session_more_laps).
Defined.

(** C5 as stated fails: a lap at 1500, a reset, which keeps the lap, and
    a lap 100 after the next start give the list [1500; 100]. *)
Lemma laps_decrease_after_reset :
  ∃ (t : Z) (k : nat) (w : World Z),
    reachable t k w ∧
    laps (vars w) = [1500; 100] ∧
    ¬ nondecreasing (laps (vars w)).
Proof.
  exists 3100, 1%nat,
    (run [(Start, 0); (Lap, 1500); (Reset, 2000); (Start, 3000); (Lap, 3100)]
         (boot 0 ∅)).
  split; [exact reachable_session|].
  split; [reflexivity|].
  intros H. specialize (H 0%nat 1500 100 eq_refl eq_refl). lia.
Qed.

(** ** Best and worst split *)

Lemma splits_of_length (lst : list Z) : length (splits_of lst) = length lst.
Proof. unfold splits_of. apply length_imap. Qed.

Lemma splits_of_at (lst : list Z) (i : nat) :
  (i < length lst)%nat → at_index (splits_of lst) i = split_at lst i.
Proof.
  intros Hi. unfold at_index, splits_of. rewrite list_lookup_imap.
  destruct (lookup_lt_is_Some_2 lst i Hi) as [x Hx].
  rewrite Hx. cbn. destruct i as [|j]; cbn.
  - rewrite Hx. reflexivity.
  - rewrite Hx, Nat.sub_0_r. reflexivity.
Qed.

Lemma lt_at_spec (v : Z) (a : list Z) (i : nat) :
  (i < length a)%nat → lt_at v a i = (v <? at_index a i).
Proof.
  intros Hi. unfold lt_at, at_index.
  destruct (lookup_lt_is_Some_2 a i Hi) as [x ->]. reflexivity.
Qed.

Lemma gt_at_spec (v : Z) (a : list Z) (i : nat) :
  (i < length a)%nat → gt_at v a i = (v >? at_index a i).
Proof.
  intros Hi. unfold gt_at, at_index.
  destruct (lookup_lt_is_Some_2 a i Hi) as [x ->]. reflexivity.
Qed.

(** One call of the callback, on entry [i]. *)
Lemma compare_split_step (a : list Z) (i : nat) (bw : nat * nat) :
  (i < length a)%nat →
  first_extremes a i bw →
  first_extremes a (S i) (compare_split a (at_index a i) i bw).
Proof.
  intros Hi (Hb & Hw & Hmin & Hfirst & Hmax & Hlast).
  destruct bw as [b w]. unfold compare_split, first_extremes. cbn in *.
  rewrite lt_at_spec, gt_at_spec by assumption.
  assert (Hcase : ∀ j, (j < S i)%nat → (j < i)%nat ∨ j = i) by lia.
  destruct (Z.ltb_spec (at_index a i) (at_index a b)) as [Hlt|Hge];
    destruct (Z.gtb_spec (at_index a i) (at_index a w)) as [Hgt|Hle];
    repeat split; try assumption; intros j Hj; try intros Hj';
    try (destruct (Hcase j Hj) as [Hj''| ->]; [|lia]);
    try (specialize (Hmin j ltac:(lia) ltac:(lia)));
    try (specialize (Hmax j ltac:(lia) ltac:(lia)));
    try lia; auto.
Qed.

(** The whole pass, started at entry [i]. *)
Lemma forEach_compare_split (a rest : list Z) :
  ∀ (i : nat) (bw : nat * nat),
    drop i a = rest →
    first_extremes a i bw →
    first_extremes a (length a) (forEach (compare_split a) rest i bw).
Proof.
  induction rest as [|v rest IH]; intros i bw Hdrop Hinv; cbn.
  - assert (length a ≤ i)%nat as Hlen.
    { apply (f_equal length) in Hdrop. rewrite length_drop in Hdrop. cbn in Hdrop. lia. }
    destruct Hinv as (Hb & Hw & Hmin & Hfirst & Hmax & Hlast).
    repeat split; try assumption; intros j Hj _; [apply Hmin|apply Hmax]; lia.
  - assert (a !! i = Some v) as Hv.
    { rewrite <- (Nat.add_0_r i), <- lookup_drop, Hdrop. reflexivity. }
    assert (i < length a)%nat as Hi by (eapply lookup_lt_Some; eassumption).
    assert (at_index a i = v) as Hat by (unfold at_index; rewrite Hv; reflexivity).
    apply IH.
    + rewrite (drop_S a v i Hv) in Hdrop. congruence.
    + rewrite <- Hat. apply compare_split_step; assumption.
Qed.

(** C7. With fewer than two laps [bestWorstIndices] returns -1 for both
    indices.  Otherwise [best] is the index of a least split and [worst]
    the index of a greatest split, split 0 being [laps[0]] and split [i]
    being [laps[i] - laps[i-1]]; every earlier split is strictly greater
    than the best one and strictly less than the worst one, so the
    lowest index wins a tie. *)
Theorem bestWorstIndices_spec (lst : list Z) :
  ((length lst < 2)%nat → bestWorstIndices lst = mkIndices (-1) (-1)) ∧
  ((2 ≤ length lst)%nat →
   ∃ b w : nat,
     bestWorstIndices lst = mkIndices (Z.of_nat b) (Z.of_nat w) ∧
     (b < length lst)%nat ∧ (w < length lst)%nat ∧
     (∀ j, (j < length lst)%nat → split_at lst b ≤ split_at lst j) ∧
     (∀ j, (j < b)%nat → split_at lst b < split_at lst j) ∧
     (∀ j, (j < length lst)%nat → split_at lst j ≤ split_at lst w) ∧
     (∀ j, (j < w)%nat → split_at lst j < split_at lst w)).
Proof.
  unfold bestWorstIndices. split; intros Hlen.
  - destruct (Nat.ltb_spec (length lst) 2); [reflexivity|lia].
  - destruct (Nat.ltb_spec (length lst) 2); [lia|].
    pose proof (splits_of_length lst) as Hsl.
    assert (first_extremes (splits_of lst) 0 (0%nat, 0%nat)) as Hinit.
    { unfold first_extremes. cbn. rewrite Hsl. repeat split; intros; lia. }
    pose proof (forEach_compare_split (splits_of lst) (splits_of lst)
                  0 (0%nat, 0%nat) (drop_0 _) Hinit) as Hend.
    cbv zeta.
    destruct (forEach (compare_split (splits_of lst)) (splits_of lst) 0 (0%nat, 0%nat))
      as [b w].
    destruct Hend as (Hb & Hw & Hmin & Hfirst & Hmax & Hlast). cbn in *.
    rewrite Hsl in *.
    exists b, w. split; [reflexivity|]. split; [assumption|]. split; [assumption|].
    repeat split; intros j Hj.
    + rewrite <- !splits_of_at by lia. apply Hmin; lia.
    + rewrite <- !splits_of_at by lia. apply Hfirst; lia.
    + rewrite <- !splits_of_at by lia. apply Hmax; lia.
    + rewrite <- !splits_of_at by lia. apply Hlast; lia.
Qed.

Lemma bestWorstIndices_spec_witness :
  bestWorstIndices [1500] = mkIndices (-1) (-1) ∧
  ∃ b w : nat,
    bestWorstIndices [1500; 3000; 4500; 4600; 4700; 9000; 13300] =
      mkIndices (Z.of_nat b) (Z.of_nat w) ∧
    (b < 7)%nat ∧ (w < 7)%nat.
Proof.
  split.
  - apply (bestWorstIndices_spec [1500]). cbn. lia.
  - destruct (bestWorstIndices_spec [1500; 3000; 4500; 4600; 4700; 9000; 13300])
      as [_ H].
    destruct H as (b & w & Heq & Hb & Hw & _); [cbn; lia|].
    exists b, w. auto.
Defined.

(** * Further properties of the script *)

(** ** The start/pause button *)

(** The click on the start/pause button flips [running], keeps the laps,
    and does not change what the watch shows at the reading of the click:
    starting resumes from [elapsed], pausing folds the running interval
    into it. *)
Theorem startPause_flips_and_keeps_time (now : Z) (w : World Z) :
  outcome (startPause now) w = Done tt ∧
  running (vars (exec (startPause now) w)) = negb (running (vars w)) ∧
  shown now (vars (exec (startPause now) w)) = shown now (vars w) ∧
  laps (vars (exec (startPause now) w)) = laps (vars w).
Proof.
  open_world w. unfold shown. destruct r; script; repeat split; lia.
Qed.

(** ** Running intervals add up *)

Lemma run_app (cs ds : list (command * Z)) (w : World Z) :
  run (cs ++ ds) w = run ds (run cs w).
Proof. unfold run. apply foldl_app. Qed.

(** From a paused watch, a session of start/pause pairs ends paused with
    the laps it had, and with [elapsed] the value the lengths of the
    intervals give when they are added to it one after the other, as
    [pause()] adds them: the readings between a pause and the next start
    do not enter it. *)
Theorem intervals_add_up (l : list (Z * Z)) :
  ∀ w : World Z,
    running (vars w) = false →
    running (vars (run (intervals l) w)) = false ∧
    elapsed (vars (run (intervals l) w)) = accumulated (elapsed (vars w)) l ∧
    laps (vars (run (intervals l) w)) = laps (vars w).
Proof.
  induction l as [|[a b] l IH]; intros w Hr.
  - cbn. repeat split. assumption.
  - change (intervals ((a, b) :: l)) with ([(Start, a); (Pause, b)] ++ intervals l).
    rewrite run_app.
    assert (running (vars (run [(Start, a); (Pause, b)] w)) = false ∧
            elapsed (vars (run [(Start, a); (Pause, b)] w)) = elapsed (vars w) + (b - a) ∧
            laps (vars (run [(Start, a); (Pause, b)] w)) = laps (vars w))
      as (Hr' & He' & Hl').
    { open_world w. subst r. unfold run. script. repeat split. }
    destruct (IH _ Hr') as (Hr'' & He'' & Hl'').
    split; [exact Hr''|]. split; [|congruence].
    rewrite He'', He'. reflexivity.
Qed.

Lemma intervals_add_up_witness :
  elapsed (vars (run (intervals [(100, 400); (1000, 1250); (1300, 1310)])
                     (mkWorld (mkState 0 40 false [7]) ∅))) = ((40 + 300) + 250) + 10.
Proof.
  apply (intervals_add_up [(100, 400); (1000, 1250); (1300, 1310)]
           (mkWorld (mkState 0 40 false [7]) ∅)).
  reflexivity.
Defined.

(** ** Nothing negative in a session *)

(** In every state reached from the fresh variables under a clock that
    does not go back, [elapsed] is not negative, a running watch was
    started no later than the current reading, no lap is negative, and
    what the watch shows is not negative. *)
Theorem session_times_nonnegative (t : Z) (k : nat) (w : World Z) :
  reachable t k w →
  0 ≤ elapsed (vars w) ∧
  (running (vars w) = true → startTime (vars w) ≤ t) ∧
  Forall (λ x, 0 ≤ x) (laps (vars w)) ∧
  0 ≤ shown t (vars w).
Proof.
  intros H.
  assert (0 ≤ elapsed (vars w) ∧
          (running (vars w) = true → startTime (vars w) ≤ t) ∧
          Forall (λ x, 0 ≤ x) (laps (vars w))) as (He & Hst & Hl).
  { induction H as [t store|t t' k w c _ (He & Hst & Hl) Ht].
    - cbn. repeat split; [lia|discriminate|constructor].
    - open_world w.
      destruct c, r; script; cbn in *;
        repeat split; try assumption; try constructor; try discriminate;
        try (specialize (Hst eq_refl)); try lia; intros; try lia.
      apply Forall_app. split; [assumption|].
      constructor; [lia|constructor]. }
  repeat split; try assumption.
  unfold shown. destruct (running (vars w)); [specialize (Hst eq_refl)|]; lia.
Qed.

Lemma session_times_nonnegative_witness :
  0 ≤ shown 3100
        (vars (run [(Start, 0); (Lap, 1500); (Reset, 2000); (Start, 3000); (Lap, 3100)]
                   (boot 0 ∅))).
Proof.
  apply (session_times_nonnegative 3100 1). exact reachable_session.
Defined.

(** ** What the actions write to the storage *)

(** An action either changes nothing at all or leaves the stored entry
    equal to the encoding of the variables as they are after it; it never
    throws. *)
Theorem actions_save_what_they_change (c : command) (now : Z) (w : World Z) :
  outcome (perform c now) w = Done tt ∧
  (exec (perform c now) w = w ∨ in_sync (exec (perform c now) w)).
Proof.
  open_world w. unfold in_sync, saved.
  destruct c, r; script; split; try reflexivity;
    first [left; reflexivity | right; apply lookup_insert_eq].
Qed.

(** The actions and the start/pause click write to no entry of the
    storage but the script's own. *)
Theorem actions_write_own_entry_only (c : command) (now : Z) (w : World Z) (k : string) :
  k ≠ STORAGE_KEY →
  localStorage (exec (perform c now) w) !! k = localStorage w !! k ∧
  localStorage (exec (startPause now) w) !! k = localStorage w !! k.
Proof.
  intros Hk. open_world w.
  split; [destruct c, r|destruct r]; script;
    rewrite ?lookup_insert_ne by congruence; reflexivity.
Qed.

Lemma actions_write_own_entry_only_witness :
  localStorage (exec (perform Lap 7)
                     (mkWorld (mkState 0 0 true []) {[ "theme" := Encoded (VStr "dark") ]}))
    !! "theme" = Some (Encoded (VStr "dark")).
Proof.
  destruct (actions_write_own_entry_only Lap 7
              (mkWorld (mkState 0 0 true []) {[ "theme" := Encoded (VStr "dark") ]})
              "theme") as [H _]; [discriminate|].
  rewrite H. reflexivity.
Defined.

(** ** Reloading the page *)

Lemma loadState_in_sync (w : World Z) (v : State value) :
  in_sync w →
  loadState (mkWorld v (localStorage w)) =
    (Done tt, mkWorld (inject (vars w)) (localStorage w)).
Proof.
  unfold in_sync, saved. open_world w. intros H. script. rewrite H. cbn.
  rewrite !or_else_num. destruct r; reflexivity.
Qed.

(** When the stored entry is the encoding of the variables, a new process
    that starts up on that storage has the same [elapsed], [running] and
    [laps] and the same storage; if the watch was paused it has the same
    [startTime] too. *)
Theorem reload_restores (n1 n2 n3 : Z) (w : World Z) :
  in_sync w →
  ∃ w' : World Z,
    startup n1 n2 n3 (localStorage w) = Some w' ∧
    elapsed (vars w') = elapsed (vars w) ∧
    running (vars w') = running (vars w) ∧
    laps (vars w') = laps (vars w) ∧
    localStorage w' = localStorage w ∧
    (running (vars w) = false → w' = w).
Proof.
  intros Hsync.
  pose proof (loadState_in_sync w (initial (VNum 0)) Hsync) as Hload.
  exists (exec (resume n1 n2 n3) w). split.
  - unfold startup, boot.
    replace (exec loadState (mkWorld (initial (VNum 0)) (localStorage w)))
      with (mkWorld (inject (vars w)) (localStorage w))
      by exact (eq_sym (f_equal snd Hload)).
    cbn [vars localStorage]. rewrite numeric_inject.
    destruct w; reflexivity.
  - destruct (resume_rest n1 n2 n3 w) as (_ & He & Hr & Hl & Hs).
    repeat split; try assumption.
    intros Hpaused. open_world w. subst r. reflexivity.
Qed.

Lemma reload_restores_witness :
  ∃ w' : World Z,
    startup 5 5 5 (localStorage (exec (perform Pause 3000)
                                      (mkWorld (mkState 0 0 true [1500]) ∅))) = Some w' ∧
    elapsed (vars w') = 3000 ∧ laps (vars w') = [1500].
Proof.
  destruct (reload_restores 5 5 5
              (exec (perform Pause 3000) (mkWorld (mkState 0 0 true [1500]) ∅)))
    as (w' & Hs & He & _ & Hl & _).
  - unfold in_sync, saved. script. apply lookup_insert_eq.
  - exists w'. split; [exact Hs|]. split; [exact He|exact Hl].
Defined.

(** ** Reset and clear *)

(** [reset()] and [clearLaps()] in either order give the same world, with
    the variables as they are in a fresh process; a second [reset()]
    changes nothing more. *)
Theorem reset_and_clearLaps (t t' : Z) (w : World Z) :
  exec clearLaps (exec (reset t) w) = exec (reset t) (exec clearLaps w) ∧
  vars (exec clearLaps (exec (reset t) w)) = initial 0 ∧
  exec (reset t') (exec (reset t) w) = exec (reset t) w.
Proof.
  open_world w.
  destruct r; script; rewrite ?insert_insert_eq; repeat split.
Qed.

(** ** Loading assigns all four variables or none *)

Lemma field_object (props : list (string * value)) (k : string) :
  field (VObj props) k = lookup_prop k props.
Proof. reflexivity. Qed.


(** ** Best and worst split, further *)

(** With two laps or more, the indices returned are those of the first
    least and of the first greatest split. *)
Lemma bestWorstIndices_extremes (lst : list Z) :
  (2 ≤ length lst)%nat →
  ∃ b w : nat,
    bestWorstIndices lst = mkIndices (Z.of_nat b) (Z.of_nat w) ∧
    (b < length lst)%nat ∧ (w < length lst)%nat ∧
    (∀ j, (j < length lst)%nat → split_at lst b ≤ split_at lst j) ∧
    (∀ j, (j < b)%nat → split_at lst b < split_at lst j) ∧
    (∀ j, (j < length lst)%nat → split_at lst j ≤ split_at lst w) ∧
    (∀ j, (j < w)%nat → split_at lst j < split_at lst w).
Proof.
  intros Hlen. unfold bestWorstIndices.
  destruct (Nat.ltb_spec (length lst) 2); [lia|].
  pose proof (splits_of_length lst) as Hsl.
  assert (first_extremes (splits_of lst) 0 (0%nat, 0%nat)) as Hinit.
  { unfold first_extremes. cbn. rewrite Hsl. repeat split; intros; lia. }
  apply (forEach_compare_split (splits_of lst) (splits_of lst) 0 _ (drop_0 _)) in Hinit.
  cbv zeta.
  destruct (forEach (compare_split (splits_of lst)) (splits_of lst) 0 (0%nat, 0%nat))
    as [b w].
  destruct Hinit as (Hb & Hw & Hmin & Hfirst & Hmax & Hlast). cbn in *.
  rewrite Hsl in *.
  exists b, w. split; [reflexivity|]. split; [assumption|]. split; [assumption|].
  repeat split; intros j Hj; rewrite <- !splits_of_at by lia; auto with lia.
Qed.

(** With two laps or more, one lap is both the best and the worst
    exactly when all splits are equal, and it is then the first lap. *)
Theorem best_is_worst_iff_even_splits (lst : list Z) :
  (2 ≤ length lst)%nat →
  (best (bestWorstIndices lst) = worst (bestWorstIndices lst) ↔
   ∀ i j, (i < length lst)%nat → (j < length lst)%nat →
          split_at lst i = split_at lst j) ∧
  (best (bestWorstIndices lst) = worst (bestWorstIndices lst) →
   best (bestWorstIndices lst) = 0).
Proof.
  intros Hlen.
  destruct (bestWorstIndices_extremes lst Hlen)
    as (b & w & -> & Hb & Hw & Hmin & Hfirst & Hmax & Hlast). cbn.
  split; [split|].
  - intros Hbw i j Hi Hj. apply Nat2Z.inj in Hbw. subst w.
    pose proof (Hmin i Hi). pose proof (Hmax i Hi).
    pose proof (Hmin j Hj). pose proof (Hmax j Hj). lia.
  - intros Heq. f_equal.
    destruct b as [|b'].
    + destruct w as [|w']; [reflexivity|].
      pose proof (Hlast 0%nat ltac:(lia)).
      pose proof (Heq 0%nat (S w') ltac:(lia) ltac:(lia)). lia.
    + pose proof (Hfirst 0%nat ltac:(lia)).
      pose proof (Heq 0%nat (S b') ltac:(lia) ltac:(lia)). lia.
  - intros Hbw. apply Nat2Z.inj in Hbw. subst w.
    destruct b as [|b']; [reflexivity|].
    pose proof (Hfirst 0%nat ltac:(lia)).
    pose proof (Hmax 0%nat ltac:(lia)). lia.
Qed.

Lemma best_is_worst_iff_even_splits_witness :
  best (bestWorstIndices [1000; 2000; 3000]) = 0.
Proof.
  destruct (best_is_worst_iff_even_splits [1000; 2000; 3000]) as [_ H].
  - cbn. lia.
  - apply H. reflexivity.
Defined.

(** ** The lap table *)







(** ** The formatted time *)

Lemma length_append (a b : string) :
  String.length (a +:+ b) = (String.length a + String.length b)%nat.
Proof.
  induction a as [|c a IH]; [reflexivity|].
  change (String c a +:+ b) with (String c (a +:+ b)).
  cbn [String.length]. rewrite IH. reflexivity.
Qed.

(** Two texts that end in parts of the same length are equal only if the
    parts are. *)
Lemma append_inj_suffix (a : string) :
  ∀ a' b b' : string,
    String.length b = String.length b' →
    a +:+ b = a' +:+ b' → a = a' ∧ b = b'.
Proof.
  induction a as [|c a IH]; intros [|c' a'] b b' Hlen Heq.
  - split; [reflexivity|exact Heq].
  - change ("" +:+ b) with b in Heq. subst b.
    change (String c' a' +:+ b') with (String c' (a' +:+ b')) in Hlen.
    cbn [String.length] in Hlen. rewrite length_append in Hlen. lia.
  - change ("" +:+ b') with b' in Heq. subst b'.
    change (String c a +:+ b) with (String c (a +:+ b)) in Hlen.
    cbn [String.length] in Hlen. rewrite length_append in Hlen. lia.
  - change (String c a +:+ b) with (String c (a +:+ b)) in Heq.
    change (String c' a' +:+ b') with (String c' (a' +:+ b')) in Heq.
    injection Heq as -> Heq.
    destruct (IH a' b b' Hlen Heq) as [-> ->]. split; reflexivity.
Qed.

Lemma pretty_Z_nonneg (n : Z) : 0 ≤ n → pretty n = pretty (Z.to_N n).
Proof. destruct n as [|p|p]; [reflexivity|reflexivity|lia]. Qed.

Lemma pretty_N_go_grows (x : N) :
  ∀ s : string, (String.length s ≤ String.length (pretty_N_go x s))%nat.
Proof.
  induction (N.lt_wf_0 x) as [x _ IH]. intros s.
  destruct (N.eq_dec x 0%N) as [->|Hx]; [rewrite pretty_N_go_0; lia|].
  rewrite pretty_N_go_step by lia.
  etransitivity; [|apply IH; apply N.div_lt; lia].
  cbn [String.length]. lia.
Qed.

Lemma pretty_one_digit (x : N) :
  (x < 10)%N → pretty x = String (pretty_N_char x) "".
Proof.
  intros Hx. unfold pretty, pretty_N.
  destruct (decide (x = 0%N)) as [->|Hne]; [reflexivity|].
  rewrite pretty_N_go_step by lia.
  rewrite N.div_small, N.mod_small by lia.
  apply pretty_N_go_0.
Qed.

Lemma pretty_two_digits (x : N) :
  (10 ≤ x < 100)%N →
  pretty x = String (pretty_N_char (x / 10)%N) (String (pretty_N_char (x `mod` 10)%N) "").
Proof.
  intros Hx. unfold pretty, pretty_N.
  destruct (decide (x = 0%N)) as [->|Hne]; [lia|].
  assert (0 < x / 10 < 10)%N as Hq.
  { split; [apply N.div_str_pos; lia|apply N.Div0.div_lt_upper_bound; lia]. }
  rewrite pretty_N_go_step by lia.
  rewrite pretty_N_go_step by lia.
  rewrite (N.div_small (x / 10)%N), (N.mod_small (x / 10)%N) by lia.
  apply pretty_N_go_0.
Qed.

Lemma pretty_three_digits (x : N) :
  (100 ≤ x)%N → (3 ≤ String.length (pretty x))%nat.
Proof.
  intros Hx. unfold pretty, pretty_N.
  destruct (decide (x = 0%N)) as [->|Hne]; [lia|].
  assert (10 ≤ x / 10)%N as Hq by (apply N.div_le_lower_bound; lia).
  assert (1 ≤ x / 10 / 10)%N as Hq' by (apply N.div_le_lower_bound; lia).
  rewrite pretty_N_go_step by lia.
  rewrite pretty_N_go_step by lia.
  rewrite pretty_N_go_step by lia.
  etransitivity; [|apply pretty_N_go_grows]. cbn [String.length]. lia.
Qed.

Lemma pad2_length (n : Z) : 0 ≤ n < 100 → String.length (pad2 n) = 2%nat.
Proof.
  intros Hn. unfold pad2. rewrite pretty_Z_nonneg by lia.
  destruct (Z.ltb_spec n 10).
  - rewrite pretty_one_digit by lia. reflexivity.
  - rewrite pretty_two_digits by lia. reflexivity.
Qed.

Lemma pad2_inj (n m : Z) : 0 ≤ n → 0 ≤ m → pad2 n = pad2 m → n = m.
Proof.
  assert (∀ a b : Z, 0 ≤ a < 10 → 10 ≤ b → "0" +:+ pretty a ≠ pretty b) as Hmix.
  { intros a b Ha Hb Heq. rewrite !pretty_Z_nonneg in Heq by lia.
    rewrite pretty_one_digit in Heq by lia.
    destruct (Z.ltb_spec b 100) as [Hlt|Hge].
    - rewrite pretty_two_digits in Heq by lia.
      injection Heq as Hc _.
      apply (pretty_N_char_inj 0%N) in Hc; [|lia|apply N.Div0.div_lt_upper_bound; lia].
      assert (1 ≤ Z.to_N b / 10)%N by (apply N.div_le_lower_bound; lia). lia.
    - pose proof (pretty_three_digits (Z.to_N b) ltac:(lia)) as Hlen.
      rewrite <- Heq, length_append in Hlen. cbn in Hlen. lia. }
  intros Hn Hm. unfold pad2.
  destruct (Z.ltb_spec n 10), (Z.ltb_spec m 10); intros Heq.
  - injection Heq as Heq. exact (pretty_Z_inj _ _ Heq).
  - exfalso. apply (Hmix n m); [lia|lia|exact Heq].
  - exfalso. apply (Hmix m n); [lia|lia|]. symmetry. exact Heq.
  - exact (pretty_Z_inj _ _ Heq).
Qed.

(** The four fields can be read back from the text. *)
Lemma clock_text_inj (h m s c h' m' s' c' : Z) :
  0 ≤ h → 0 ≤ h' →
  0 ≤ m < 100 → 0 ≤ m' < 100 → 0 ≤ s < 100 → 0 ≤ s' < 100 →
  0 ≤ c < 100 → 0 ≤ c' < 100 →
  pad2 h +:+ ":" +:+ pad2 m +:+ ":" +:+ pad2 s +:+ "." +:+ pad2 c =
  pad2 h' +:+ ":" +:+ pad2 m' +:+ ":" +:+ pad2 s' +:+ "." +:+ pad2 c' →
  h = h' ∧ m = m' ∧ s = s' ∧ c = c'.
Proof.
  intros Hh Hh' Hm Hm' Hs Hs' Hc Hc' Heq.
  pose proof (pad2_length m Hm). pose proof (pad2_length m' Hm').
  pose proof (pad2_length s Hs). pose proof (pad2_length s' Hs').
  pose proof (pad2_length c Hc). pose proof (pad2_length c' Hc').
  apply append_inj_suffix in Heq as [Eh Heq].
  2:{ rewrite ?length_append. cbn [String.length]. lia. }
  apply (String.app_inj ":") in Heq.
  apply append_inj_suffix in Heq as [Em Heq].
  2:{ rewrite ?length_append. cbn [String.length]. lia. }
  apply (String.app_inj ":") in Heq.
  apply append_inj_suffix in Heq as [Es Heq].
  2:{ rewrite ?length_append. cbn [String.length]. lia. }
  apply (String.app_inj ".") in Heq.
  repeat split; apply pad2_inj; (lia || assumption).
Qed.

(** Below 2^53 [formatMs] gives a text, whose four fields it reads off
    the whole centiseconds. *)
Lemma formatMs_by_centis (ms : Z) :
  ms < 2 ^ 53 →
  let q := Z.max 0 ms / 10 in
  formatMs ms =
    Some (pad2 (q / 360000) +:+ ":" +:+ pad2 ((q / 6000) `mod` 60) +:+ ":" +:+
          pad2 ((q / 100) `mod` 60) +:+ "." +:+ pad2 (q `mod` 100)).
Proof.
  intros Hms q. subst q. unfold formatMs.
  destruct (Z.ltb_spec ms (2 ^ 53)) as [_|Hge]; [|lia].
  cbv zeta. f_equal.
  assert (0 ≤ Z.max 0 ms) as Ht by lia.
  generalize dependent (Z.max 0 ms). intros t Ht.
  rewrite !Z.rem_mod_nonneg by (try apply Z.div_pos; try apply Z.div_pos; lia).
  assert (t / 1000 / 3600 = t / 10 / 360000) as -> by (rewrite !Z.div_div by lia; reflexivity).
  assert (t / 1000 / 60 = t / 10 / 6000) as -> by (rewrite !Z.div_div by lia; reflexivity).
  assert (t / 1000 = t / 10 / 100) as -> by (rewrite !Z.div_div by lia; reflexivity).
  assert ((t `mod` 1000) / 10 = (t / 10) `mod` 100) as ->
    by (Z.div_mod_to_equations; lia).
  reflexivity.
Qed.

Lemma formatMs_beyond (ms : Z) : 2 ^ 53 ≤ ms → formatMs ms = None.
Proof.
  intros Hms. unfold formatMs.
  destruct (Z.ltb_spec ms (2 ^ 53)); [lia|reflexivity].
Qed.

Lemma centis_fields_bounds (q : Z) :
  0 ≤ q →
  0 ≤ q / 360000 ∧ 0 ≤ (q / 6000) `mod` 60 < 100 ∧ 0 ≤ (q / 100) `mod` 60 < 100 ∧
  0 ≤ q `mod` 100 < 100.
Proof. intros Hq. Z.div_mod_to_equations. lia. Qed.

(** The text tells the whole centiseconds. *)
Lemma clock_text_centis (p q : Z) :
  0 ≤ p → 0 ≤ q →
  pad2 (p / 360000) +:+ ":" +:+ pad2 ((p / 6000) `mod` 60) +:+ ":" +:+
  pad2 ((p / 100) `mod` 60) +:+ "." +:+ pad2 (p `mod` 100) =
  pad2 (q / 360000) +:+ ":" +:+ pad2 ((q / 6000) `mod` 60) +:+ ":" +:+
  pad2 ((q / 100) `mod` 60) +:+ "." +:+ pad2 (q `mod` 100) →
  p = q.
Proof.
  intros Hp Hq Heq.
  destruct (centis_fields_bounds p Hp) as (? & ? & ? & ?).
  destruct (centis_fields_bounds q Hq) as (? & ? & ? & ?).
  apply clock_text_inj in Heq as (Eh & Em & Es & Ec); try assumption.
  revert Eh Em Es Ec. Z.div_mod_to_equations. lia.
Qed.

(** Of two whole-millisecond times below 2^53, [formatMs] gives the same
    text exactly when they agree in their whole centiseconds, a negative
    time counting as 0; the hours are not wrapped. *)
Theorem formatMs_centiseconds (a b : Z) :
  a < 2 ^ 53 → b < 2 ^ 53 →
  (formatMs a = formatMs b ↔ Z.max 0 a / 10 = Z.max 0 b / 10).
Proof.
  intros Ha Hb.
  rewrite (formatMs_by_centis a Ha), (formatMs_by_centis b Hb). cbv zeta.
  assert (0 ≤ Z.max 0 a / 10) as Hp by (apply Z.div_pos; lia).
  assert (0 ≤ Z.max 0 b / 10) as Hq by (apply Z.div_pos; lia).
  generalize dependent (Z.max 0 a / 10). intros p Hp.
  generalize dependent (Z.max 0 b / 10). intros q Hq.
  split; [|intros ->; reflexivity].
  intros Heq. injection Heq as Heq. apply clock_text_centis; assumption.
Qed.

Lemma formatMs_centiseconds_witness :
  formatMs 3723450 = formatMs 3723459 ∧ formatMs 3723450 ≠ formatMs 3723460.
Proof.
  split.
  - apply (formatMs_centiseconds 3723450 3723459); [lia|lia|reflexivity].
  - intros H. apply (formatMs_centiseconds 3723450 3723460) in H; [|lia|lia].
    vm_compute in H. discriminate.
Defined.

(** Below a hundred hours the text has the eleven characters of
    [hh:mm:ss.cc]; it is [00:00:00.00] exactly for the times below ten
    milliseconds, the negative ones included. *)
Theorem formatMs_shape (ms : Z) :
  (ms < 360000000 →
   ∃ text : string, formatMs ms = Some text ∧ String.length text = 11%nat) ∧
  (formatMs ms = Some "00:00:00.00" ↔ ms < 10).
Proof.
  split.
  - intros Hms. rewrite formatMs_by_centis by lia. cbv zeta.
    eexists. split; [reflexivity|].
    assert (0 ≤ Z.max 0 ms / 10 < 36000000) as Hq
      by (split; [apply Z.div_pos|apply Z.div_lt_upper_bound]; lia).
    generalize dependent (Z.max 0 ms / 10). intros q Hq.
    destruct (centis_fields_bounds q ltac:(lia)) as (? & ? & ? & ?).
    assert (q / 360000 < 100) by (apply Z.div_lt_upper_bound; lia).
    rewrite !length_append, !pad2_length by lia. reflexivity.
  - destruct (Z.lt_ge_cases ms (2 ^ 53)) as [Hlt|Hge].
    2:{ rewrite formatMs_beyond by lia. split; [discriminate|lia]. }
    change (Some "00:00:00.00") with (formatMs 0).
    rewrite (formatMs_by_centis ms Hlt), (formatMs_by_centis 0) by lia. cbv zeta.
    change (Z.max 0 0 / 10) with 0.
    assert (0 ≤ Z.max 0 ms / 10) as Hq by (apply Z.div_pos; lia).
    assert (Z.max 0 ms / 10 = 0 ↔ ms < 10) as <-
      by (Z.div_mod_to_equations; lia).
    generalize dependent (Z.max 0 ms / 10). intros q Hq.
    split; [|intros ->; reflexivity].
    intros Heq. injection Heq as Heq. apply clock_text_centis; [assumption|lia|assumption].
Qed.

Lemma formatMs_shape_witness :
  ∃ text : string, formatMs 3723450 = Some text ∧ String.length text = 11%nat.
Proof. apply (formatMs_shape 3723450). lia. Defined.

Example formatMs_sample : formatMs 3723450 = Some "01:02:03.45".
Proof. reflexivity. Qed.

Example formatMs_long : formatMs 360000000 = Some "100:00:00.00".
Proof. reflexivity. Qed.

(** ** The buttons *)

(** What [updateButtons()] sets agrees with what the actions do on the
    same variables: the lap button is disabled exactly when [lap()] would
    change no variable, the clear button exactly when [clearLaps()] would
    change none, and the start/pause button reads [Pause] exactly when a
    click on it pauses the watch. *)
Theorem buttons_agree_with_actions (now t : Z) (w : World Z) :
  (lapDisabled (updateButtons now (vars w)) = true ↔
   vars (exec (lap t) w) = vars w) ∧
  (clearLapsDisabled (updateButtons now (vars w)) = true ↔
   vars (exec clearLaps w) = vars w) ∧
  (label (updateButtons now (vars w)) = "Pause" ↔
   running (vars (exec (startPause t) w)) = false).
Proof.
  open_world w. split; [|split].
  - destruct r; script; split; intros H; try reflexivity; try discriminate.
    injection H as H. apply (f_equal length) in H.
    rewrite length_app in H. cbn in H. lia.
  - script. destruct l as [|x l]; cbn; split; intros H;
      try reflexivity; discriminate.
  - destruct r; script; split; intros H; try reflexivity; try discriminate.
    destruct (e >? 0); discriminate.
Qed.

(** ** Laps and the running time *)

(** In every state reached under a clock that does not go back, no lap
    recorded since the latest [reset()] exceeds what the watch shows. *)
Theorem laps_at_most_shown (t : Z) (k : nat) (w : World Z) :
  reachable t k w →
  Forall (λ x, x ≤ shown t (vars w)) (drop k (laps (vars w))).
Proof.
  intros H. apply reachable_laps_in_step in H. apply H.
Qed.

Lemma laps_at_most_shown_witness :
  Forall (λ x, x ≤ 100)
    (drop 1 (laps (vars (run [(Start, 0); (Lap, 1500); (Reset, 2000);
                              (Start, 3000); (Lap, 3100)] (boot 0 ∅))))).
Proof.
  exact (laps_at_most_shown 3100 1 _ reachable_session).
Defined.
